(** * KML File Viewer: the state transitions of [src/App.js]

    The component [App] keeps three pieces of React state ([geoJsonData],
    [summary], [details]) and a reference to the Leaflet map.  This file
    embeds its handlers as functions on that state and proves the
    properties the specification states about them.

    JavaScript objects used as dictionaries ([counts], [detailsData]) are
    finite maps with string keys; arrays are lists; [null] is [None]. *)

From Stdlib Require Import QArith.
From stdpp Require Import base option list strings gmap fin_maps.

Local Open Scope string_scope.
Set Warnings "-register-all".

(** ** JavaScript numbers

    A double is either NaN, one of the two infinities, or a finite value,
    which is a rational.  Only comparisons and truthiness are interpreted;
    floating-point addition and the great-circle distance stay abstract
    (see [Imports]), so nothing below depends on how they round. *)

Inductive number : Type :=
| NaN
| NegInfinity
| Num (q : Q)
| Infinity.

(** [a < b] on numbers: false as soon as one side is NaN. *)
Definition lt (a b : number) : bool :=
  match a, b with
  | NaN, _ | _, NaN => false
  | _, NegInfinity => false
  | NegInfinity, _ => true
  | Infinity, _ => false
  | Num _, Infinity => true
  | Num x, Num y => match (x ?= y)%Q with Lt => true | _ => false end
  end.

(** [a > b]. *)
Definition gt (a b : number) : bool := lt b a.

(** Truthiness of a number: [0] and [NaN] are falsy. *)
Definition truthy (a : number) : bool :=
  match a with
  | NaN => false
  | Num q => negb (Qeq_bool q 0)
  | NegInfinity | Infinity => true
  end.

(** The order of the extended reals, on numbers that are not NaN. *)
Definition num_le (a b : number) : Prop :=
  match a, b with
  | NaN, _ | _, NaN => False
  | NegInfinity, _ => True
  | _, Infinity => True
  | Num x, Num y => (x <= y)%Q
  | _, _ => False
  end.

Definition is_number (a : number) : Prop := a ≠ NaN.

(** ** GeoJSON, as [toGeoJSON.kml] produces it *)

(** A position is [[longitude, latitude]]: [coord[0]] and [coord[1]]. *)
Record Position := { lon : number; lat : number }.

Inductive Geometry : Type :=
| Point (coordinates : Position)
| MultiPoint (coordinates : list Position)
| LineString (coordinates : list Position)
| MultiLineString (coordinates : list (list Position))
| Polygon (coordinates : list (list Position))
| MultiPolygon (coordinates : list (list (list Position)))
| GeometryCollection (geometries : list Geometry).

(** [geometry.type] *)
Definition type (g : Geometry) : string :=
  match g with
  | Point _ => "Point"
  | MultiPoint _ => "MultiPoint"
  | LineString _ => "LineString"
  | MultiLineString _ => "MultiLineString"
  | Polygon _ => "Polygon"
  | MultiPolygon _ => "MultiPolygon"
  | GeometryCollection _ => "GeometryCollection"
  end.

Record Feature := { geometry : Geometry }.

Record FeatureCollection := { features : list Feature }.

(** Every position of a geometry, in document order. *)
Fixpoint coordAll (g : Geometry) : list Position :=
  match g with
  | Point p => [p]
  | MultiPoint ps | LineString ps => ps
  | MultiLineString ls | Polygon ls => concat ls
  | MultiPolygon pss => concat (concat pss)
  | GeometryCollection gs => flat_map coordAll gs
  end.

Definition coordsOf (c : FeatureCollection) : list Position :=
  flat_map (λ f, coordAll (geometry f)) (features c).

(** ** The turf helpers the component calls *)

(** [turf.bbox] answers [[west, south, east, north]]; the fields are named
    after the array indices the component reads. *)
Record BBox := { b0 : number; b1 : number; b2 : number; b3 : number }.

Definition bbox_step (result : BBox) (coord : Position) : BBox :=
  {| b0 := if gt (b0 result) (lon coord) then lon coord else b0 result;
     b1 := if gt (b1 result) (lat coord) then lat coord else b1 result;
     b2 := if lt (b2 result) (lon coord) then lon coord else b2 result;
     b3 := if lt (b3 result) (lat coord) then lat coord else b3 result |}.

(** Modelled from the spec: [turf.bbox] is a dependency whose code is not
    part of the repository.  The specification describes it as the minimum
    bounding rectangle over every coordinate of every feature, with a
    "no bounds" answer when there is none; it is modelled the way the
    library computes it, one comparison per side and per coordinate,
    starting from the inverted infinite box. *)
Definition bbox (c : FeatureCollection) : BBox :=
  fold_left bbox_step (coordsOf c)
    {| b0 := Infinity; b1 := Infinity; b2 := NegInfinity; b3 := NegInfinity |}.

(** Consecutive coordinate pairs of one line. *)
Fixpoint pairs (ps : list Position) : list (Position * Position) :=
  match ps with
  | a :: (b :: _) as rest => (a, b) :: pairs rest
  | _ => []
  end.

(** The segments of a geometry: points have none; lines and rings are cut
    into consecutive pairs, never across two lines. *)
Fixpoint segments (g : Geometry) : list (Position * Position) :=
  match g with
  | Point _ | MultiPoint _ => []
  | LineString ps => pairs ps
  | MultiLineString ls | Polygon ls => flat_map pairs ls
  | MultiPolygon pss => flat_map (flat_map pairs) pss
  | GeometryCollection gs => flat_map segments gs
  end.

(** ** The DOM *)

Inductive Node : Type :=
| Element (tagName : string) (childNodes : list Node)
| Text (data : string).

Definition Document := Node.

(** [getElementsByTagName]: the elements with a given name, the node itself
    included, in document order. *)
Fixpoint getElementsByTagName (name : string) (n : Node) : list Node :=
  match n with
  | Element tag children =>
      (if bool_decide (tag = name) then [n] else [])
      ++ flat_map (getElementsByTagName name) children
  | Text _ => []
  end%list.

(** A document reports a parse failure through a [parsererror] element. *)
Definition parsererror (doc : Document) : bool :=
  match getElementsByTagName "parsererror" doc with
  | [] => false
  | _ :: _ => true
  end.

(** ** What the component imports

    [DOMParser] is a total function: [parseFromString] never throws, a text
    that is not XML gives a [parsererror] document.  [getPlacemark] is the
    reading of one Placemark by [togeojson] (no feature when it holds no
    geometry).  [distance] and [add] are the great-circle distance in
    kilometres and the addition of doubles. *)
Class Imports := {
  parseFromString : string → Document;
  getPlacemark : Node → list Feature;
  distance : Position → Position → number;
  add : number → number → number;
}.

(** Modelled from the spec: [toGeoJSON.kml] is a dependency whose code is
    not part of the repository.  The specification: it "walks Placemark
    elements, and emits one Feature per geometry found"; a document without
    any gives a collection with an empty feature sequence, not an error. *)
Definition kml `{Imports} (doc : Document) : FeatureCollection :=
  {| features := flat_map getPlacemark (getElementsByTagName "Placemark" doc) |}.

(** Modelled from the spec: [turf.length] is a dependency whose code is not
    part of the repository.  The specification: "great-circle distance
    accumulation along consecutive coordinate pairs (and, for
    MultiLineString, across all constituent lines)", added to a running
    total that starts at [0]. *)
Definition turf_length `{Imports} (feature : Feature) : number :=
  fold_left (λ previousValue '(a, b), add previousValue (distance a b))
            (segments (geometry feature)) (Num 0).

(** ** The component's state *)

Record AppState := {
  geoJsonData : option FeatureCollection;
  summary : option (gmap string nat);
  details : option (gmap string number);
}.

(** [useState(null)], three times. *)
Definition initialState : AppState :=
  {| geoJsonData := None; summary := None; details := None |}.

Definition setGeoJsonData (v : option FeatureCollection) (s : AppState) : AppState :=
  {| geoJsonData := v; summary := summary s; details := details s |}.

Definition setSummary (v : option (gmap string nat)) (s : AppState) : AppState :=
  {| geoJsonData := geoJsonData s; summary := v; details := details s |}.

Definition setDetails (v : option (gmap string number)) (s : AppState) : AppState :=
  {| geoJsonData := geoJsonData s; summary := summary s; details := v |}.

(** A file of the picker; [text] is what [readAsText] delivers. *)
Record File := { text : string }.

(** [reader.onload]: lines 19-28. *)
Definition onload `{Imports} (result : string) (s : AppState) : AppState :=
  let kml_doc := parseFromString result in
  let geoJson := kml kml_doc in
  setDetails None (setSummary None (setGeoJsonData (Some geoJson) s)).

(** [handleFileUpload]: lines 15-30.  The second component is the read it
    starts, if any; the state itself is only changed later, by [onload]. *)
Definition handleFileUpload (files : list File) (s : AppState)
  : AppState * option File :=
  match files !! 0%nat with
  | None => (s, None)
  | Some file => (s, Some file)
  end.

(** [x || 0] on a count that may be [undefined]. *)
Definition count_or_0 (x : option nat) : nat :=
  match x with
  | Some (S n) => S n
  | _ => 0%nat
  end.

(** The body of the [forEach] of [handleSummary]. *)
Definition count_feature (counts : gmap string nat) (feature : Feature)
  : gmap string nat :=
  let geomType := type (geometry feature) in
  <[geomType := (count_or_0 (counts !! geomType) + 1)%nat]> counts.

Definition summarize (c : FeatureCollection) : gmap string nat :=
  fold_left count_feature (features c) ∅.

(** [handleSummary]: lines 33-41. *)
Definition handleSummary (s : AppState) : AppState :=
  match geoJsonData s with
  | None => s
  | Some c => setSummary (Some (summarize c)) s
  end.

(** [x || 0] on a length that may be [undefined]. *)
Definition length_or_0 (x : option number) : number :=
  match x with
  | Some v => if truthy v then v else Num 0
  | None => Num 0
  end.

Definition is_line (geomType : string) : bool :=
  bool_decide (geomType = "LineString") || bool_decide (geomType = "MultiLineString").

(** The body of the [forEach] of [handleDetailed]. *)
Definition add_length `{Imports} (detailsData : gmap string number)
    (feature : Feature) : gmap string number :=
  let geomType := type (geometry feature) in
  if is_line geomType then
    let length := turf_length feature in
    <[geomType := add (length_or_0 (detailsData !! geomType)) length]> detailsData
  else detailsData.

Definition detail `{Imports} (c : FeatureCollection) : gmap string number :=
  fold_left add_length (features c) ∅.

(** [handleDetailed]: lines 44-55. *)
Definition handleDetailed `{Imports} (s : AppState) : AppState :=
  match geoJsonData s with
  | None => s
  | Some c => setDetails (Some (detail c)) s
  end.

(** ** The map and the effect that frames the data *)

Definition LatLng : Type := number * number.

(** What the Leaflet map shows: the view it was created with, or the
    bounds [fitBounds] was last called with. *)
Inductive Viewport : Type :=
| SetView (center : LatLng) (zoom : nat)
| FitBounds (southWest northEast : LatLng) (padding : nat * nat).

(** [center={[51.505, -0.09]} zoom={13}] *)
Definition defaultViewport : Viewport :=
  SetView (Num (51505 # 1000), Num (- 9 # 100)) 13.

(** Lines 61-63: the box of [turf.bbox], read as two corners. *)
Definition computeBounds (c : FeatureCollection) : LatLng * LatLng :=
  let bbox := bbox c in
  let southWest := (b1 bbox, b0 bbox) in
  let northEast := (b3 bbox, b2 bbox) in
  (southWest, northEast).

(** The effect of lines 58-67.  [mapRef] is [mapRef.current]: [None] until
    [whenCreated] has stored the map, then the map with its viewport. *)
Definition fitBoundsEffect (geoJsonData : option FeatureCollection)
    (mapRef : option Viewport) : option Viewport :=
  match geoJsonData, mapRef with
  | Some c, Some _ =>
      let '(southWest, northEast) := computeBounds c in
      Some (FitBounds southWest northEast (20, 20)%nat)
  | _, _ => mapRef
  end.

(** ** The event loop

    The page reacts to five events: a change of the file input, the end of
    a read in flight, a click on either button, and the creation of the
    map.  Reads end in any order. *)

Record World := {
  app : AppState;
  reading : list File;
  mapRef : option Viewport;
}.

Definition initialWorld : World :=
  {| app := initialState; reading := []; mapRef := None |}.

Inductive Event : Type :=
| onChange (files : list File)
| loadEnd (i : nat)
| clickSummary
| clickDetailed
| whenCreated.

Definition step `{Imports} (w : World) (e : Event) : World :=
  match e with
  | onChange files =>
      let '(s, started) := handleFileUpload files (app w) in
      {| app := s;
         reading := (reading w ++ option_list started)%list;
         mapRef := mapRef w |}
  | loadEnd i =>
      match reading w !! i with
      | None => w
      | Some file =>
          let s := onload (text file) (app w) in
          {| app := s;
             reading := delete i (reading w);
             mapRef := fitBoundsEffect (geoJsonData s) (mapRef w) |}
      end
  | clickSummary =>
      {| app := handleSummary (app w); reading := reading w; mapRef := mapRef w |}
  | clickDetailed =>
      {| app := handleDetailed (app w); reading := reading w; mapRef := mapRef w |}
  | whenCreated =>
      {| app := app w; reading := reading w;
         mapRef := from_option Some (Some defaultViewport) (mapRef w) |}
  end.

Definition run `{Imports} (es : list Event) (w : World) : World :=
  fold_left step es w.

(** A derived table is fresh when it is the one the current collection
    gives. *)
Definition fresh_summary (s : AppState) : Prop :=
  summary s = None ∨
  ∃ c, geoJsonData s = Some c ∧ summary s = Some (summarize c).

Definition fresh_details `{Imports} (s : AppState) : Prop :=
  details s = None ∨
  ∃ c, geoJsonData s = Some c ∧ details s = Some (detail c).

(** ** Counting, as the specification words it *)

(** The number of features of a collection whose geometry has a given type. *)
Definition occurrences (t : string) (fs : list Feature) : nat :=
  length (filter (λ f, type (geometry f) = t) fs).

(** The sum of the values of a table of counts. *)
Definition total (m : gmap string nat) : nat :=
  map_fold (λ _ n acc, (n + acc)%nat) 0%nat m.

(** The number of positions of a geometry. *)
Definition points (g : Geometry) : nat := length (coordAll g).

(** No entry of a table of counts is zero. *)
Definition positive (counts : gmap string nat) : Prop :=
  ∀ t n, counts !! t = Some n → (0 < n)%nat.

(** A table of lengths has keys for the two line types only. *)
Definition line_keys (detailsData : gmap string number) : Prop :=
  ∀ t, is_Some (detailsData !! t) → t = "LineString" ∨ t = "MultiLineString".

(** The data model's coordinates are decimal degrees: no coordinate of the
    collection is NaN. *)
Definition decimal_degrees (c : FeatureCollection) : Prop :=
  Forall (λ p, is_number (lat p) ∧ is_number (lon p)) (coordsOf c).

(** ** Extrema, as the specification words them *)

Definition minimum (m : number) (l : list number) : Prop :=
  m ∈ l ∧ ∀ x, x ∈ l → num_le m x.

Definition maximum (m : number) (l : list number) : Prop :=
  m ∈ l ∧ ∀ x, x ∈ l → num_le x m.

(** One side of [bbox_step]. *)
Definition min_step (r x : number) : number := if gt r x then x else r.
Definition max_step (r x : number) : number := if lt r x then x else r.

(** ** A session for the examples

    A collection with a route and a place, and the answers of a browser
    for the two texts the examples read: an empty KML document, and a text
    that is not XML.  The session reads no other text and no Placemark, and
    measures no distance. *)

Definition paris : Position :=
  {| lon := Num (2352 # 1000); lat := Num (48857 # 1000) |}.
Definition lyon : Position :=
  {| lon := Num (4836 # 1000); lat := Num (45764 # 1000) |}.
Definition brest : Position :=
  {| lon := Num (- 4486 # 1000); lat := Num (48390 # 1000) |}.

Definition route : FeatureCollection :=
  {| features := [ {| geometry := LineString [paris; lyon] |};
                   {| geometry := Point brest |} ] |}.

Definition empty_kml : string := "<kml></kml>".
Definition broken_kml : string := "<kml><Placemark>".

(** Addition without rounding. *)
Definition exact_add (a b : number) : number :=
  match a, b with
  | NaN, _ | _, NaN => NaN
  | Infinity, NegInfinity | NegInfinity, Infinity => NaN
  | Infinity, _ | _, Infinity => Infinity
  | NegInfinity, _ | _, NegInfinity => NegInfinity
  | Num x, Num y => Num (Qred (x + y))
  end.

#[local] Instance session : Imports := {|
  parseFromString text :=
    if String.eqb text empty_kml then Element "kml" []
    else Element "parsererror" [Text "XML Parsing Error"];
  getPlacemark _ := [];
  distance _ _ := NaN;
  add := exact_add;
|}.

(** The state after [route] was loaded and Summary was clicked. *)
Definition route_summarized : AppState :=
  {| geoJsonData := Some route;
     summary := Some (summarize route);
     details := None |}.

(** ** The rows of the tables

    The tables are rendered from [Object.entries], which lists the keys of
    an object in the order they were created (a geometry type is never an
    array index).  The two loops are embedded a second time with that
    order kept: an object is the list of its entries. *)

(** [o[k]] *)
Fixpoint Object_get {V} (o : list (string * V)) (k : string) : option V :=
  match o with
  | [] => None
  | (k', v) :: o' => if decide (k' = k) then Some v else Object_get o' k
  end.

(** [o[k] = v]: an existing key keeps its place, a new one goes last. *)
Fixpoint Object_set {V} (o : list (string * V)) (k : string) (v : V)
  : list (string * V) :=
  match o with
  | [] => [(k, v)]
  | (k', v') :: o' =>
      if decide (k' = k) then (k, v) :: o' else (k', v') :: Object_set o' k v
  end.

(** Lines 36-39, on the ordered object. *)
Definition count_entry (counts : list (string * nat)) (feature : Feature)
  : list (string * nat) :=
  let geomType := type (geometry feature) in
  Object_set counts geomType (count_or_0 (Object_get counts geomType) + 1)%nat.

(** [Object.entries(summary)], line 103, after [handleSummary]. *)
Definition summary_entries (c : FeatureCollection) : list (string * nat) :=
  fold_left count_entry (features c) [].

(** Lines 47-53, on the ordered object. *)
Definition length_entry `{Imports} (detailsData : list (string * number))
    (feature : Feature) : list (string * number) :=
  let geomType := type (geometry feature) in
  if is_line geomType then
    let length := turf_length feature in
    Object_set detailsData geomType
               (add (length_or_0 (Object_get detailsData geomType)) length)
  else detailsData.

(** [Object.entries(details)], line 125, after [handleDetailed]. *)
Definition details_entries `{Imports} (c : FeatureCollection)
  : list (string * number) :=
  fold_left length_entry (features c) [].

(** The keys after an assignment: unchanged for a key already there, one
    more at the end otherwise. *)
Definition add_key (acc : list string) (k : string) : list string :=
  if decide (k ∈ acc) then acc else (acc ++ [k])%list.

(** The elements of a list, each at its first occurrence. *)
Fixpoint first_occurrences (l : list string) : list string :=
  match l with
  | [] => []
  | t :: l' => t :: filter (λ u, u ≠ t) (first_occurrences l')
  end.

(** The types of the features, in document order. *)
Definition types (c : FeatureCollection) : list string :=
  (λ f, type (geometry f)) <$> features c.

(** The running total of one type: what line 51 does to the entry of the
    type, feature after feature. *)
Definition running_total `{Imports} (acc : option number) (fs : list Feature)
  : option number :=
  fold_left (λ acc f, Some (add (length_or_0 acc) (turf_length f))) fs acc.

(** The collection holding the features of two collections, in order. *)
Definition concat_collections (c1 c2 : FeatureCollection) : FeatureCollection :=
  {| features := (features c1 ++ features c2)%list |}.

(** The map, when it was framed, is framed on the current collection. *)
Definition fresh_viewport (w : World) : Prop :=
  mapRef w = None
  ∨ mapRef w = Some defaultViewport
  ∨ ∃ c, geoJsonData (app w) = Some c
         ∧ mapRef w = Some (FitBounds (computeBounds c).1 (computeBounds c).2
                                      (20, 20)%nat).

(** * Properties *)

(** ** Counting features by type *)

Section Summary.
Implicit Types (counts : gmap string nat) (fs : list Feature) (t : string).

Lemma count_or_0_Some counts t n :
  counts !! t = Some n → count_or_0 (counts !! t) = n.
Proof. intros ->. by destruct n. Qed.

Lemma occurrences_cons t f fs :
  occurrences t (f :: fs)
  = ((if decide (type (geometry f) = t) then 1 else 0) + occurrences t fs)%nat.
Proof.
  unfold occurrences. rewrite filter_cons.
  destruct (decide (type (geometry f) = t)); reflexivity.
Qed.

(** One step of the loop adds one to the entry of the feature's type and
    leaves the others alone. *)
Lemma count_feature_lookup counts f t :
  count_or_0 (count_feature counts f !! t)
  = ((if decide (type (geometry f) = t) then 1 else 0)
     + count_or_0 (counts !! t))%nat.
Proof.
  unfold count_feature. destruct (decide (type (geometry f) = t)) as [->|Hne].
  - rewrite lookup_insert_eq. simpl.
    destruct (count_or_0 (counts !! t)); simpl; lia.
  - by rewrite lookup_insert_ne.
Qed.

Lemma fold_count_lookup fs counts t :
  count_or_0 (fold_left count_feature fs counts !! t)
  = (count_or_0 (counts !! t) + occurrences t fs)%nat.
Proof.
  revert counts. induction fs as [|f fs IH]; intros counts; simpl.
  - unfold occurrences. simpl. lia.
  - rewrite IH, count_feature_lookup, occurrences_cons. lia.
Qed.

Lemma count_feature_positive counts f :
  positive counts → positive (count_feature counts f).
Proof.
  intros Hpos t n. unfold count_feature.
  destruct (decide (type (geometry f) = t)) as [->|Hne].
  - rewrite lookup_insert_eq. intros [= <-]. lia.
  - rewrite lookup_insert_ne by done. apply Hpos.
Qed.

Lemma fold_count_positive fs counts :
  positive counts → positive (fold_left count_feature fs counts).
Proof.
  revert counts. induction fs as [|f fs IH]; intros counts Hpos; simpl.
  - done.
  - apply IH, count_feature_positive, Hpos.
Qed.

Lemma total_insert counts t n :
  total (<[t := n]> counts) = (n + total (delete t counts))%nat.
Proof.
  unfold total. rewrite <- insert_delete_eq.
  rewrite map_fold_insert_L; [done | intros; lia | apply lookup_delete_eq].
Qed.

Lemma total_lookup counts t :
  total counts = (from_option id 0%nat (counts !! t) + total (delete t counts))%nat.
Proof.
  destruct (counts !! t) as [n|] eqn:Hl; simpl.
  - unfold total. by rewrite (map_fold_delete_L _ _ t n counts); [| intros; lia |].
  - by rewrite delete_id.
Qed.

Lemma count_feature_total counts f :
  total (count_feature counts f) = S (total counts).
Proof.
  unfold count_feature. set (t := type (geometry f)).
  rewrite total_insert, (total_lookup counts t).
  destruct (counts !! t) as [[|n]|]; simpl; lia.
Qed.

Lemma fold_count_total fs counts :
  total (fold_left count_feature fs counts) = (total counts + length fs)%nat.
Proof.
  revert counts. induction fs as [|f fs IH]; intros counts; simpl.
  - lia.
  - rewrite IH, count_feature_total. lia.
Qed.

Lemma occurrences_pos t fs :
  (0 < occurrences t fs)%nat ↔ ∃ f, f ∈ fs ∧ type (geometry f) = t.
Proof.
  unfold occurrences. split.
  - intros Hlen.
    destruct (filter (λ f, type (geometry f) = t) fs) as [|f l] eqn:Hf;
      [simpl in Hlen; lia|].
    assert (f ∈ filter (λ f, type (geometry f) = t) fs) as Hin
      by (rewrite Hf; left).
    apply list_elem_of_filter in Hin as [Ht Hin]. by exists f.
  - intros (f & Hin & Ht).
    assert (f ∈ filter (λ f, type (geometry f) = t) fs) as Hf
      by (apply list_elem_of_filter; done).
    destruct (filter _ fs); [inversion Hf | simpl; lia].
Qed.
End Summary.

Example summarize_route :
  summarize route = {[ "LineString" := 1%nat; "Point" := 1%nat ]}.
Proof. by vm_compute. Qed.

Example summarize_empty : summarize {| features := [] |} = ∅.
Proof. reflexivity. Qed.

(** C1: for every collection, the table of [handleSummary] has an entry
    exactly for the geometry types that occur among the features (a type
    that does not occur has no key), the value of an entry is the number of
    features of that type, and the values sum to the number of features. *)
Theorem summarize_counts_by_type (c : FeatureCollection) :
  (∀ t, is_Some (summarize c !! t)
        ↔ ∃ f, f ∈ features c ∧ type (geometry f) = t)
  ∧ (∀ t, (occurrences t (features c) = 0)%nat → summarize c !! t = None)
  ∧ (∀ t n, summarize c !! t = Some n → n = occurrences t (features c))
  ∧ total (summarize c) = length (features c)
  ∧ ∀ s, geoJsonData s = Some c →
         summary (handleSummary s) = Some (summarize c).
Proof.
  assert (Hpos : positive (summarize c)).
  { apply fold_count_positive. intros t n. by rewrite lookup_empty. }
  assert (Hocc : ∀ t, count_or_0 (summarize c !! t) = occurrences t (features c)).
  { intros t. unfold summarize. rewrite fold_count_lookup, lookup_empty. done. }
  assert (Hval : ∀ t n, summarize c !! t = Some n → n = occurrences t (features c)).
  { intros t n Hl. rewrite <- Hocc. symmetry. by apply count_or_0_Some. }
  split; [|split; [|split; [|split]]].
  - intros t. rewrite <- occurrences_pos. split.
    + intros [n Hl]. rewrite <- (Hval t n Hl). by apply (Hpos t).
    + intros Hlt. destruct (summarize c !! t) as [n|] eqn:Hl; [by eexists|].
      specialize (Hocc t). rewrite Hl in Hocc. simpl in Hocc. lia.
  - intros t Hzero. destruct (summarize c !! t) as [n|] eqn:Hl; [|done].
    pose proof (Hpos t n Hl). pose proof (Hval t n Hl). lia.
  - exact Hval.
  - unfold summarize. rewrite fold_count_total. unfold total.
    rewrite map_fold_empty. lia.
  - intros s Hs. unfold handleSummary. rewrite Hs. reflexivity.
Qed.

(** ** Lengths of line features *)

Section Detail.
Context `{Imports}.
Implicit Types (detailsData : gmap string number) (fs : list Feature).

Lemma is_line_spec t :
  is_line t = true ↔ t = "LineString" ∨ t = "MultiLineString".
Proof.
  unfold is_line. rewrite orb_true_iff, !bool_decide_eq_true. reflexivity.
Qed.

Lemma add_length_skip detailsData f :
  is_line (type (geometry f)) = false → add_length detailsData f = detailsData.
Proof. unfold add_length. by intros ->. Qed.

Lemma add_length_keys detailsData f :
  line_keys detailsData → line_keys (add_length detailsData f).
Proof.
  intros Hkeys t. unfold add_length.
  destruct (is_line (type (geometry f))) eqn:Hline; [|apply Hkeys].
  destruct (decide (type (geometry f) = t)) as [<-|Hne].
  - intros _. by apply is_line_spec.
  - rewrite lookup_insert_ne by done. apply Hkeys.
Qed.

Lemma fold_add_length_keys fs detailsData :
  line_keys detailsData → line_keys (fold_left add_length fs detailsData).
Proof.
  revert detailsData. induction fs as [|f fs IH]; intros detailsData Hkeys; simpl.
  - done.
  - by apply IH, add_length_keys.
Qed.

Lemma fold_add_length_filter fs detailsData :
  fold_left add_length fs detailsData
  = fold_left add_length (filter (λ f, is_line (type (geometry f))) fs) detailsData.
Proof.
  revert detailsData. induction fs as [|f fs IH]; intros detailsData; [done|].
  rewrite filter_cons. simpl.
  destruct (is_line (type (geometry f))) eqn:Hline.
  - rewrite decide_True by exact I. simpl. apply IH.
  - rewrite decide_False by (intros []). rewrite add_length_skip by done. apply IH.
Qed.

Lemma pairs_short (ps : list Position) : (length ps < 2)%nat → pairs ps = [].
Proof. destruct ps as [|a [|b ps]]; simpl; intros; [done | done | lia]. Qed.

Lemma flat_map_pairs_short (ls : list (list Position)) :
  (length (concat ls) < 2)%nat → flat_map pairs ls = [].
Proof.
  induction ls as [|l ls IH]; simpl; [done|].
  rewrite length_app. intros Hlen.
  rewrite pairs_short by lia. rewrite IH by lia. done.
Qed.

Lemma line_geometry (g : Geometry) :
  is_line (type g) = true →
  (∃ ps, g = LineString ps) ∨ (∃ ls, g = MultiLineString ls).
Proof. destruct g; simpl; try discriminate; eauto. Qed.

Lemma handleSummary_idem s : handleSummary (handleSummary s) = handleSummary s.
Proof. unfold handleSummary. destruct s as [[c|] sm dt]; reflexivity. Qed.

Lemma handleDetailed_idem s : handleDetailed (handleDetailed s) = handleDetailed s.
Proof. unfold handleDetailed. destruct s as [[c|] sm dt]; reflexivity. Qed.
End Detail.

(** A point, a line and a polygon: the table of lengths has the line's key
    only, whatever the distance is. *)
Example detail_point_line_polygon `{Imports} :
  detail {| features := [ {| geometry := Point brest |};
                          {| geometry := LineString [paris; lyon] |};
                          {| geometry := Polygon [[paris; lyon; brest; paris]] |} ] |}
  = {[ "LineString" := add (Num 0) (add (Num 0) (distance paris lyon)) ]}.
Proof. reflexivity. Qed.

Example detail_empty `{Imports} : detail {| features := [] |} = ∅.
Proof. reflexivity. Qed.

(** C3: the table of [handleDetailed] has keys only for LineString and
    MultiLineString, and a feature of any other type contributes nothing:
    the table is the one the line features alone give, and removing such a
    feature from the collection leaves every entry as it was.  The
    computation is a total function, so no feature makes it fail. *)
Theorem detail_ignores_other_types `{Imports} (c : FeatureCollection) :
  (∀ t, is_Some (detail c !! t) → t = "LineString" ∨ t = "MultiLineString")
  ∧ detail c
    = detail {| features := filter (λ f, is_line (type (geometry f))) (features c) |}
  ∧ (∀ (before after : list Feature) f,
       features c = (before ++ f :: after)%list →
       is_line (type (geometry f)) = false →
       detail c = detail {| features := (before ++ after)%list |})
  ∧ ∀ s, geoJsonData s = Some c →
         details (handleDetailed s) = Some (detail c).
Proof.
  split; [|split; [|split]].
  - apply fold_add_length_keys. intros t. rewrite lookup_empty. by intros [? ?].
  - unfold detail. simpl. apply fold_add_length_filter.
  - intros before after f Hfs Hline. unfold detail. simpl. rewrite Hfs.
    rewrite !fold_left_app. simpl. by rewrite add_length_skip.
  - intros s Hs. unfold handleDetailed. by rewrite Hs.
Qed.

(** C4: both computations are functions of the current collection alone.
    Running a handler twice gives the state that running it once gives; the
    table it stores is the same whatever the other two pieces of state
    hold; it changes nothing but its own table; and the two handlers can be
    run in either order. *)
Theorem summary_and_detail_are_pure `{Imports} (s : AppState) :
  handleSummary (handleSummary s) = handleSummary s
  ∧ handleDetailed (handleDetailed s) = handleDetailed s
  ∧ (∀ c sm dt sm' dt',
       summary (handleSummary {| geoJsonData := Some c; summary := sm; details := dt |})
       = summary (handleSummary {| geoJsonData := Some c; summary := sm'; details := dt' |})
       ∧ details (handleDetailed {| geoJsonData := Some c; summary := sm; details := dt |})
         = details (handleDetailed {| geoJsonData := Some c; summary := sm'; details := dt' |}))
  ∧ geoJsonData (handleSummary s) = geoJsonData s
  ∧ details (handleSummary s) = details s
  ∧ geoJsonData (handleDetailed s) = geoJsonData s
  ∧ summary (handleDetailed s) = summary s
  ∧ handleSummary (handleDetailed s) = handleDetailed (handleSummary s).
Proof.
  split; [apply handleSummary_idem|].
  split; [apply handleDetailed_idem|].
  split; [intros; split; reflexivity|].
  unfold handleSummary, handleDetailed.
  destruct s as [[c|] sm dt]; simpl; repeat split; reflexivity.
Qed.

(** C5: with no collection loaded, a click on Summary or on Detailed
    returns at once: the state, and with it the whole page, stays as it
    was. *)
Theorem buttons_without_collection `{Imports} (s : AppState) :
  geoJsonData s = None →
  handleSummary s = s
  ∧ handleDetailed s = s
  ∧ ∀ w, app w = s → step w clickSummary = w ∧ step w clickDetailed = w.
Proof.
  intros Hnone. unfold handleSummary, handleDetailed. rewrite Hnone.
  repeat split; destruct w as [a r m]; simpl in *; subst a;
    unfold handleSummary, handleDetailed; rewrite Hnone; reflexivity.
Qed.

(** C9: a LineString or MultiLineString feature with fewer than two
    coordinate points has no segment, so its length is exactly [0], and
    [0] is what the loop of [handleDetailed] adds to the entry of its
    type. *)
Theorem short_line_has_length_0 `{Imports} (feature : Feature) :
  is_line (type (geometry feature)) = true →
  (points (geometry feature) < 2)%nat →
  turf_length feature = Num 0
  ∧ ∀ detailsData,
      add_length detailsData feature
      = <[type (geometry feature) :=
            add (length_or_0 (detailsData !! type (geometry feature))) (Num 0)]>
          detailsData.
Proof.
  intros Hline Hpoints.
  assert (Hseg : segments (geometry feature) = []).
  { destruct (line_geometry _ Hline) as [[ps Hg]|[ls Hg]];
      rewrite Hg in *; unfold points in Hpoints; simpl in *.
    - by apply pairs_short.
    - by apply flat_map_pairs_short. }
  assert (Hlen : turf_length feature = Num 0).
  { unfold turf_length. rewrite Hseg. reflexivity. }
  split; [exact Hlen|].
  intros detailsData. unfold add_length. rewrite Hline, Hlen. reflexivity.
Qed.

(** C10: a change event without a file starts no read and leaves the
    collection, the summary and the details as they were; the page as a
    whole does not move. *)
Theorem upload_without_file `{Imports} (s : AppState) :
  handleFileUpload [] s = (s, None)
  ∧ ∀ w, step w (onChange []) = w.
Proof.
  split; [reflexivity|].
  intros [a r m]. simpl. by rewrite app_nil_r.
Qed.

(** ** The bounding box *)

Section Bounds.
Implicit Types (a b r x : number) (l : list number) (ps : list Position).

Lemma num_le_refl a : is_number a → num_le a a.
Proof. destruct a; simpl; try done. intros _. apply Qle_refl. Qed.

Lemma num_le_trans a b r : num_le a b → num_le b r → num_le a r.
Proof. destruct a, b, r; simpl; try done. apply Qle_trans. Qed.

Lemma lt_num_le a b : lt a b = true → num_le a b.
Proof.
  destruct a as [| |x|], b as [| |y|]; simpl; try done.
  destruct (x ?= y)%Q eqn:Hc; try done. intros _.
  apply Qlt_le_weak. by apply Qlt_alt.
Qed.

Lemma not_lt_num_le a b :
  is_number a → is_number b → lt a b = false → num_le b a.
Proof.
  destruct a as [| |x|], b as [| |y|]; simpl; try done.
  intros _ _ Hc. unfold Qle. unfold Qcompare in Hc.
  destruct (Z.compare_spec (Qnum x * QDen y) (Qnum y * QDen x)); [lia | done | lia].
Qed.

Lemma num_le_Infinity a : num_le Infinity a → a = Infinity.
Proof. by destruct a. Qed.

Lemma num_le_NegInfinity a : num_le a NegInfinity → a = NegInfinity.
Proof. by destruct a. Qed.

(** The running minimum is below its start and below every element, and
    it is the start or one of the elements. *)
Lemma fold_min_step l r :
  is_number r → Forall is_number l →
  let m := fold_left min_step l r in
  num_le m r ∧ (∀ x, x ∈ l → num_le m x) ∧ (m = r ∨ m ∈ l).
Proof.
  intros Hr Hl. revert r Hr.
  induction Hl as [|x l Hx Hl IH]; intros r Hr; simpl.
  - split; [by apply num_le_refl|]. split; [|by left].
    intros x Hin. by apply not_elem_of_nil in Hin.
  - assert (Hstep : is_number (min_step r x) ∧ num_le (min_step r x) r
                    ∧ num_le (min_step r x) x
                    ∧ (min_step r x = r ∨ min_step r x = x)).
    { unfold min_step, gt. destruct (lt x r) eqn:Hc.
      - repeat split; [done | by apply lt_num_le | by apply num_le_refl | by right].
      - repeat split; [done | by apply num_le_refl | by apply not_lt_num_le | by left]. }
    destruct Hstep as (Hn & Hr' & Hx' & Hor).
    destruct (IH _ Hn) as (Hle & Hall & Hin).
    split; [by eapply num_le_trans|]. split.
    + intros y [->|Hy]%elem_of_cons; [by eapply num_le_trans | by apply Hall].
    + destruct Hin as [->|Hin]; [|right; by right].
      destruct Hor as [->| ->]; [by left | right; left].
Qed.

Lemma fold_max_step l r :
  is_number r → Forall is_number l →
  let m := fold_left max_step l r in
  num_le r m ∧ (∀ x, x ∈ l → num_le x m) ∧ (m = r ∨ m ∈ l).
Proof.
  intros Hr Hl. revert r Hr.
  induction Hl as [|x l Hx Hl IH]; intros r Hr; simpl.
  - split; [by apply num_le_refl|]. split; [|by left].
    intros x Hin. by apply not_elem_of_nil in Hin.
  - assert (Hstep : is_number (max_step r x) ∧ num_le r (max_step r x)
                    ∧ num_le x (max_step r x)
                    ∧ (max_step r x = r ∨ max_step r x = x)).
    { unfold max_step. destruct (lt r x) eqn:Hc.
      - repeat split; [done | by apply lt_num_le | by apply num_le_refl | by right].
      - repeat split; [done | by apply num_le_refl | by apply not_lt_num_le | by left]. }
    destruct Hstep as (Hn & Hr' & Hx' & Hor).
    destruct (IH _ Hn) as (Hle & Hall & Hin).
    split; [by eapply num_le_trans|]. split.
    + intros y [->|Hy]%elem_of_cons; [by eapply num_le_trans | by apply Hall].
    + destruct Hin as [->|Hin]; [|right; by right].
      destruct Hor as [->| ->]; [by left | right; left].
Qed.

Lemma fold_min_Infinity l :
  l ≠ [] → Forall is_number l → minimum (fold_left min_step l Infinity) l.
Proof.
  intros Hne Hl.
  destruct (fold_min_step l Infinity) as (_ & Hall & Hin); [done | done |].
  split; [|exact Hall].
  destruct Hin as [Heq|Hin]; [|exact Hin].
  destruct l as [|x l]; [done|].
  assert (Hx : x = Infinity).
  { apply num_le_Infinity. rewrite <- Heq. apply Hall. left. }
  rewrite Heq, <- Hx. left.
Qed.

Lemma fold_max_NegInfinity l :
  l ≠ [] → Forall is_number l → maximum (fold_left max_step l NegInfinity) l.
Proof.
  intros Hne Hl.
  destruct (fold_max_step l NegInfinity) as (_ & Hall & Hin); [done | done |].
  split; [|exact Hall].
  destruct Hin as [Heq|Hin]; [|exact Hin].
  destruct l as [|x l]; [done|].
  assert (Hx : x = NegInfinity).
  { apply num_le_NegInfinity. rewrite <- Heq. apply Hall. left. }
  rewrite Heq, <- Hx. left.
Qed.

(** The four sides of the box are folded independently. *)
Lemma fold_bbox_step ps (result : BBox) :
  fold_left bbox_step ps result
  = {| b0 := fold_left min_step (lon <$> ps) (b0 result);
       b1 := fold_left min_step (lat <$> ps) (b1 result);
       b2 := fold_left max_step (lon <$> ps) (b2 result);
       b3 := fold_left max_step (lat <$> ps) (b3 result) |}.
Proof.
  revert result. induction ps as [|p ps IH]; intros result; simpl.
  - by destruct result.
  - rewrite IH. reflexivity.
Qed.

Lemma coordsOf_nonempty (c : FeatureCollection) :
  (∃ f, f ∈ features c ∧ coordAll (geometry f) ≠ []) ↔ coordsOf c ≠ [].
Proof.
  unfold coordsOf. induction (features c) as [|f fs IH]; simpl.
  - split; [intros (f & Hin & _); by apply not_elem_of_nil in Hin | done].
  - split.
    + intros (f' & [->|Hin]%elem_of_cons & Hne) Happ;
        apply app_eq_nil in Happ as [Hnil1 Hnil2]; [done|].
      apply IH in Hnil2; [done | eauto].
    + intros Hne. destruct (coordAll (geometry f)) as [|p ps] eqn:Hf.
      * simpl in Hne. apply IH in Hne as (f' & Hin & Hne').
        exists f'. split; [by right | done].
      * exists f. split; [left | by rewrite Hf].
Qed.
End Bounds.

(** C7: for a collection that has a feature with a coordinate (the
    coordinates being decimal degrees, as the data model has them), the
    two corners handed to the map are the
    minimum bounding rectangle: the southwest corner is (minimum latitude,
    minimum longitude), the northeast corner is (maximum latitude, maximum
    longitude), over every coordinate of every feature. *)
Theorem computeBounds_is_minimum_rectangle (c : FeatureCollection) :
  (∃ f, f ∈ features c ∧ coordAll (geometry f) ≠ []) →
  decimal_degrees c →
  ∃ south west north east,
    computeBounds c = ((south, west), (north, east))
    ∧ minimum south (lat <$> coordsOf c)
    ∧ minimum west (lon <$> coordsOf c)
    ∧ maximum north (lat <$> coordsOf c)
    ∧ maximum east (lon <$> coordsOf c)
    ∧ ∀ v, fitBoundsEffect (Some c) (Some v)
           = Some (FitBounds (south, west) (north, east) (20, 20)%nat).
Proof.
  intros Hne%coordsOf_nonempty Hnum.
  assert (Hlat : Forall is_number (lat <$> coordsOf c)).
  { apply Forall_fmap. eapply Forall_impl; [exact Hnum|]. by intros p [? ?]. }
  assert (Hlon : Forall is_number (lon <$> coordsOf c)).
  { apply Forall_fmap. eapply Forall_impl; [exact Hnum|]. by intros p [? ?]. }
  assert (Hlat_ne : lat <$> coordsOf c ≠ []) by (by destruct (coordsOf c)).
  assert (Hlon_ne : lon <$> coordsOf c ≠ []) by (by destruct (coordsOf c)).
  exists (fold_left min_step (lat <$> coordsOf c) Infinity),
         (fold_left min_step (lon <$> coordsOf c) Infinity),
         (fold_left max_step (lat <$> coordsOf c) NegInfinity),
         (fold_left max_step (lon <$> coordsOf c) NegInfinity).
  assert (Hbounds : computeBounds c
    = ((fold_left min_step (lat <$> coordsOf c) Infinity,
        fold_left min_step (lon <$> coordsOf c) Infinity),
       (fold_left max_step (lat <$> coordsOf c) NegInfinity,
        fold_left max_step (lon <$> coordsOf c) NegInfinity))).
  { unfold computeBounds, bbox. rewrite fold_bbox_step. reflexivity. }
  split; [exact Hbounds|].
  split; [by apply fold_min_Infinity|].
  split; [by apply fold_min_Infinity|].
  split; [by apply fold_max_NegInfinity|].
  split; [by apply fold_max_NegInfinity|].
  intros v. unfold fitBoundsEffect. rewrite Hbounds. reflexivity.
Qed.

(** The route from Paris to Lyon and the place in Brest are framed by
    Lyon's latitude and Brest's longitude to the southwest, and by Paris's
    latitude and Lyon's longitude to the northeast. *)
Lemma computeBounds_route :
  (∃ f, f ∈ features route ∧ coordAll (geometry f) ≠ [])
  ∧ decimal_degrees route
  ∧ ∃ south west north east,
      computeBounds route = ((south, west), (north, east))
      ∧ minimum south (lat <$> coordsOf route)
      ∧ minimum west (lon <$> coordsOf route)
      ∧ maximum north (lat <$> coordsOf route)
      ∧ maximum east (lon <$> coordsOf route)
      ∧ ∀ v, fitBoundsEffect (Some route) (Some v)
             = Some (FitBounds (south, west) (north, east) (20, 20)%nat).
Proof.
  assert (H1 : ∃ f, f ∈ features route ∧ coordAll (geometry f) ≠ []).
  { exists {| geometry := Point brest |}. split; [|done]. right. left. }
  assert (H2 : decimal_degrees route).
  { unfold decimal_degrees. repeat constructor; done. }
  split; [exact H1|]. split; [exact H2|].
  exact (computeBounds_is_minimum_rectangle route H1 H2).
Defined.

Example computeBounds_route_value :
  computeBounds route = ((lat lyon, lon brest), (lat paris, lon lyon)).
Proof. reflexivity. Qed.

(** C8, as the specification states it, fails: an empty collection is a
    loaded collection.  After the map is created and the empty KML document
    is read, the effect has asked [turf.bbox] for the box, which is the
    inverted infinite one, and has called [fitBounds] with it: the map no
    longer has the view it was created with. *)
Lemma empty_collection_is_fitted :
  coordsOf (kml (parseFromString empty_kml)) = []
  ∧ fitBoundsEffect (Some {| features := [] |}) (Some defaultViewport)
    = Some (FitBounds (Infinity, Infinity) (NegInfinity, NegInfinity) (20, 20)%nat)
  ∧ run [whenCreated; onChange [ {| text := empty_kml |} ]; loadEnd 0] initialWorld
    = {| app := {| geoJsonData := Some {| features := [] |};
                   summary := None; details := None |};
         reading := [];
         mapRef := Some (FitBounds (Infinity, Infinity)
                                   (NegInfinity, NegInfinity) (20, 20)%nat) |}.
Proof. repeat split. Qed.

(** C8, amended: the effect is guarded by the presence of a collection and
    of the map, not by the presence of coordinates.  With no collection
    loaded, or before the map exists, nothing is computed and [fitBounds]
    is not called, so a map that shows its default viewport keeps it;
    events other than the end of a read never move the map.  With a
    collection and a map, [fitBounds] is called with the corners of
    [computeBounds]. *)
Theorem fitBounds_guard `{Imports} :
  (∀ mapRef, fitBoundsEffect None mapRef = mapRef)
  ∧ (∀ geoJsonData, fitBoundsEffect geoJsonData None = None)
  ∧ (∀ c v, fitBoundsEffect (Some c) (Some v)
            = Some (FitBounds (computeBounds c).1 (computeBounds c).2 (20, 20)%nat))
  ∧ (∀ w files, mapRef (step w (onChange files)) = mapRef w)
  ∧ (∀ w, mapRef (step w clickSummary) = mapRef w)
  ∧ (∀ w, mapRef (step w clickDetailed) = mapRef w)
  ∧ (∀ w, mapRef (step w whenCreated)
          = Some (default defaultViewport (mapRef w))).
Proof.
  split; [by intros [v|]|].
  split; [by intros [c|]|].
  split; [intros c v; unfold fitBoundsEffect; by destruct (computeBounds c)|].
  split; [intros w files; simpl; by destruct (handleFileUpload files (app w))|].
  split; [done|]. split; [done|].
  intros w. simpl. by destruct (mapRef w).
Qed.

(** ** Loading a file *)

(** C2, as the specification states it, fails: the text [broken_kml] is not
    XML, the parser answers with a [parsererror] document, and the load
    goes on: the collection that was loaded is replaced by the empty one
    and the summary that was shown is gone. *)
Lemma broken_kml_replaces_collection :
  parsererror (parseFromString broken_kml) = true
  ∧ geoJsonData route_summarized = Some route
  ∧ summary route_summarized
    = Some {[ "LineString" := 1%nat; "Point" := 1%nat ]}
  ∧ onload broken_kml route_summarized
    = {| geoJsonData := Some {| features := [] |};
         summary := None; details := None |}
  ∧ geoJsonData (onload broken_kml route_summarized)
    ≠ geoJsonData route_summarized.
Proof.
  split; [reflexivity|]. split; [reflexivity|].
  split; [by vm_compute|]. split; [reflexivity|].
  discriminate.
Qed.

(** C2, amended: the load has no failure path.  Whatever the text, XML or
    not, the end of the read stores the collection that [toGeoJSON.kml]
    gives for the document the parser answered, and resets the summary and
    the details; the state before the read plays no part.  A document
    without Placemark elements stores the empty collection. *)
Theorem onload_always_replaces `{Imports} (result : string) (s : AppState) :
  onload result s
  = {| geoJsonData := Some (kml (parseFromString result));
       summary := None; details := None |}
  ∧ (getElementsByTagName "Placemark" (parseFromString result) = [] →
     geoJsonData (onload result s) = Some {| features := [] |}).
Proof.
  split; [reflexivity|].
  intros Hnone. unfold onload, kml. simpl. by rewrite Hnone.
Qed.

Section Freshness.
Context `{Imports}.

Lemma onload_fresh result s :
  fresh_summary (onload result s) ∧ fresh_details (onload result s).
Proof. split; by left. Qed.

Lemma step_fresh w e :
  fresh_summary (app w) ∧ fresh_details (app w) →
  fresh_summary (app (step w e)) ∧ fresh_details (app (step w e)).
Proof.
  intros [Hs Hd]. destruct e as [files|i| | |]; simpl.
  - unfold handleFileUpload. by destruct (files !! 0%nat).
  - destruct (reading w !! i); [apply onload_fresh | done].
  - unfold handleSummary. destruct (geoJsonData (app w)) as [c|] eqn:Hgeo; [|done].
    split.
    + right. by exists c.
    + destruct Hd as [Hd|(c' & Hc' & Hd)]; [by left|]. right. by exists c'.
  - unfold handleDetailed. destruct (geoJsonData (app w)) as [c|] eqn:Hgeo; [|done].
    split.
    + destruct Hs as [Hs|(c' & Hc' & Hs)]; [by left|]. right. by exists c'.
    + right. by exists c.
  - done.
Qed.

Lemma run_fresh es w :
  fresh_summary (app w) ∧ fresh_details (app w) →
  fresh_summary (app (run es w)) ∧ fresh_details (app (run es w)).
Proof.
  revert w. induction es as [|e es IH]; intros w Hw; [done|].
  simpl. by apply IH, step_fresh.
Qed.
End Freshness.

(** C6: the end of a read replaces the collection and, in the same step,
    resets the summary and the details.  So, after any sequence of events,
    a table on display is the one the current collection gives: none is
    left over from an older collection. *)
Theorem load_clears_derived_state `{Imports} :
  (∀ result s,
     geoJsonData (onload result s) = Some (kml (parseFromString result))
     ∧ summary (onload result s) = None
     ∧ details (onload result s) = None)
  ∧ (∀ w i file,
       reading w !! i = Some file →
       app (step w (loadEnd i))
       = {| geoJsonData := Some (kml (parseFromString (text file)));
            summary := None; details := None |})
  ∧ ∀ es,
      fresh_summary (app (run es initialWorld))
      ∧ fresh_details (app (run es initialWorld)).
Proof.
  split; [done|]. split.
  - intros w i file Hfile. simpl. by rewrite Hfile.
  - intros es. apply run_fresh. split; by left.
Qed.

(** Before any load the buttons change nothing. *)
Lemma buttons_on_initialState :
  geoJsonData initialState = None
  ∧ handleSummary initialState = initialState
  ∧ handleDetailed initialState = initialState
  ∧ ∀ w, app w = initialState →
         step w clickSummary = w ∧ step w clickDetailed = w.
Proof.
  split; [reflexivity|].
  exact (buttons_without_collection initialState eq_refl).
Defined.

(** A line reduced to Paris alone has length [0]. *)
Lemma single_point_line_has_length_0 :
  is_line (type (LineString [paris])) = true
  ∧ (points (LineString [paris]) < 2)%nat
  ∧ turf_length {| geometry := LineString [paris] |} = Num 0
  ∧ ∀ detailsData,
      add_length detailsData {| geometry := LineString [paris] |}
      = <["LineString" := add (length_or_0 (detailsData !! "LineString")) (Num 0)]>
          detailsData.
Proof.
  split; [reflexivity|]. split; [unfold points; simpl; lia|].
  apply (short_line_has_length_0 {| geometry := LineString [paris] |});
    [reflexivity | unfold points; simpl; lia].
Defined.

(** * Further properties of the component *)

(** ** The summary as a function of the features *)

Section SummaryAlgebra.
Implicit Types (c : FeatureCollection) (fs : list Feature) (t : string).

(** The entry of a type is its number of occurrences, absent when zero. *)
Lemma summarize_lookup c t :
  summarize c !! t
  = match occurrences t (features c) with
    | O => None
    | S n => Some (S n)
    end.
Proof.
  assert (Hocc : count_or_0 (summarize c !! t) = occurrences t (features c)).
  { unfold summarize. by rewrite fold_count_lookup, lookup_empty. }
  assert (Hpos : positive (summarize c)).
  { apply fold_count_positive. intros t' n. by rewrite lookup_empty. }
  destruct (summarize c !! t) as [n|] eqn:Hl.
  - pose proof (Hpos t n Hl) as Hn. rewrite <- Hocc.
    destruct n; [lia | reflexivity].
  - by rewrite <- Hocc.
Qed.

Lemma occurrences_app t fs1 fs2 :
  occurrences t (fs1 ++ fs2) = (occurrences t fs1 + occurrences t fs2)%nat.
Proof. unfold occurrences. by rewrite filter_app, length_app. Qed.

End SummaryAlgebra.



(** X2: counting the features of two collections put one after the other
    adds the two tables, entry by entry; a type present in one table only
    keeps its count. *)
Theorem summarize_concat (c1 c2 : FeatureCollection) :
  summarize (concat_collections c1 c2)
  = union_with (λ n1 n2, Some (n1 + n2)%nat) (summarize c1) (summarize c2).
Proof.
  apply map_eq. intros t.
  rewrite lookup_union_with, !summarize_lookup. simpl.
  rewrite occurrences_app.
  destruct (occurrences t (features c1)), (occurrences t (features c2)); simpl;
    try reflexivity; f_equal; lia.
Qed.

(** X3: the table is empty exactly for the collection without features: a
    click on Summary after an empty document stores [{}], a table with no
    row, and any feature gives at least one row. *)
Theorem summarize_empty_iff (c : FeatureCollection) :
  summarize c = ∅ ↔ features c = [].
Proof.
  split.
  - intros Hempty. apply length_zero_iff_nil.
    assert (Htotal : total (summarize c) = length (features c)).
    { unfold summarize. rewrite fold_count_total. unfold total.
      rewrite map_fold_empty. lia. }
    rewrite <- Htotal, Hempty. reflexivity.
  - intros Hnil. unfold summarize. by rewrite Hnil.
Qed.

(** ** The order of the rows *)

Section Entries.
Context {V : Type}.
Implicit Types (o : list (string * V)) (k : string) (v : V) (l acc : list string).

Lemma Object_get_lookup o k :
  Object_get o k = (list_to_map o : gmap string V) !! k.
Proof.
  induction o as [|[k' v'] o IH]; simpl; [by rewrite lookup_empty|].
  destruct (decide (k' = k)) as [->|Hne].
  - by rewrite lookup_insert_eq.
  - by rewrite lookup_insert_ne.
Qed.

Lemma Object_set_insert o k v :
  (list_to_map (Object_set o k v) : gmap string V) = <[k := v]> (list_to_map o).
Proof.
  induction o as [|[k' v'] o IH]; simpl; [done|].
  destruct (decide (k' = k)) as [->|Hne]; simpl.
  - by rewrite insert_insert_eq.
  - rewrite IH. by apply insert_insert_ne.
Qed.

Lemma Object_set_keys o k v : (Object_set o k v).*1 = add_key (o.*1) k.
Proof.
  unfold add_key. induction o as [|[k' v'] o IH].
  - simpl. destruct (decide (k ∈ [])) as [Hin|]; [|done].
    by apply not_elem_of_nil in Hin.
  - cbn [Object_set]. destruct (decide (k' = k)) as [->|Hne].
    + cbn [fmap list_fmap fst]. destruct (decide (k ∈ k :: o.*1)) as [|Hnin]; [done|].
      exfalso. apply Hnin. left.
    + cbn [fmap list_fmap fst]. fold (fmap (M:=list) (@fst string V)). rewrite IH.
      destruct (decide (k ∈ o.*1)) as [Hin|Hnin];
        destruct (decide (k ∈ k' :: o.*1)) as [Hin'|Hnin']; try done.
      * exfalso. apply Hnin'. by right.
      * apply elem_of_cons in Hin' as [Heq|Hin']; [by subst | done].
Qed.

Lemma add_key_NoDup acc k : NoDup acc → NoDup (add_key acc k).
Proof.
  intros Hnd. unfold add_key. destruct (decide (k ∈ acc)); [done|].
  apply NoDup_app. split; [done|]. split; [|apply NoDup_singleton].
  intros x Hx ->%list_elem_of_singleton. done.
Qed.

Lemma first_occurrences_elem_of l k : k ∈ first_occurrences l ↔ k ∈ l.
Proof.
  induction l as [|t l IH]; simpl; [done|].
  rewrite !elem_of_cons, list_elem_of_filter, IH.
  destruct (decide (k = t)) as [->|Hne]; [split; by left|].
  split.
  - intros [?|[_ ?]]; [by left | by right].
  - intros [?|?]; [by left | by right].
Qed.

Lemma first_occurrences_NoDup l : NoDup (first_occurrences l).
Proof.
  induction l as [|t l IH]; simpl; [apply NoDup_nil_2|].
  apply NoDup_cons. split.
  - rewrite list_elem_of_filter. by intros [Hne _].
  - by apply NoDup_filter.
Qed.

(** Adding keys one by one keeps each at its first occurrence. *)
Lemma fold_add_key l acc :
  fold_left add_key l acc
  = (acc ++ filter (λ u, u ∉ acc) (first_occurrences l))%list.
Proof.
  revert acc. induction l as [|t l IH]; intros acc; simpl.
  - by rewrite app_nil_r.
  - rewrite IH. unfold add_key. destruct (decide (t ∈ acc)) as [Hin|Hnin].
    + rewrite filter_cons_False by (intros Hn; by apply Hn).
      f_equal. rewrite list_filter_filter. apply list_filter_iff.
      intros u. split; [|by intros [? _]]. intros Hu. split; [done|]. by intros ->.
    + rewrite filter_cons_True by done.
      rewrite <- app_assoc. simpl. do 2 f_equal.
      rewrite list_filter_filter. apply list_filter_iff.
      intros u. rewrite elem_of_app, list_elem_of_singleton. split.
      * intros Hu. split; [intros ?; apply Hu; by left | intros ?; apply Hu; by right].
      * intros [Hu Hne]. by intros [?|?].
Qed.

Lemma fold_add_key_nil l : fold_left add_key l [] = first_occurrences l.
Proof.
  rewrite fold_add_key. simpl.
  induction (first_occurrences l) as [|u us IH]; [done|].
  rewrite filter_cons_True by apply not_elem_of_nil. by rewrite IH.
Qed.
End Entries.

Section Rows.
Context `{Imports}.

Lemma count_entry_insert (o : list (string * nat)) f :
  (list_to_map (count_entry o f) : gmap string nat)
  = count_feature (list_to_map o) f.
Proof.
  unfold count_entry, count_feature.
  by rewrite Object_set_insert, Object_get_lookup.
Qed.

Lemma fold_count_entry fs (o : list (string * nat)) :
  (list_to_map (fold_left count_entry fs o) : gmap string nat)
  = fold_left count_feature fs (list_to_map o)
  ∧ (fold_left count_entry fs o).*1
    = fold_left add_key ((λ f, type (geometry f)) <$> fs) (o.*1).
Proof.
  revert o. induction fs as [|f fs IH]; intros o; simpl; [done|].
  destruct (IH (count_entry o f)) as [-> ->].
  rewrite count_entry_insert. split; [done|].
  unfold count_entry. by rewrite Object_set_keys.
Qed.

Lemma length_entry_insert (o : list (string * number)) f :
  (list_to_map (length_entry o f) : gmap string number)
  = add_length (list_to_map o) f.
Proof.
  unfold length_entry, add_length.
  destruct (is_line (type (geometry f))); [|done].
  by rewrite Object_set_insert, Object_get_lookup.
Qed.

Lemma fold_length_entry fs (o : list (string * number)) :
  (list_to_map (fold_left length_entry fs o) : gmap string number)
  = fold_left add_length fs (list_to_map o)
  ∧ (fold_left length_entry fs o).*1
    = fold_left add_key
        (filter (λ t, is_line t) ((λ f, type (geometry f)) <$> fs)) (o.*1).
Proof.
  revert o. induction fs as [|f fs IH]; intros o; [done|].
  cbn [fold_left fmap list_fmap].
  destruct (IH (length_entry o f)) as [-> ->].
  rewrite length_entry_insert. split; [done|].
  rewrite filter_cons. unfold length_entry.
  destruct (is_line (type (geometry f))) eqn:Hline; simpl.
  - by rewrite Object_set_keys.
  - done.
Qed.
End Rows.

(** X4: the rows of the summary table.  [Object.entries(summary)] has one
    row per type among the features, in the order in which the types first
    appear in the document, and read as a dictionary it is the table that
    [handleSummary] stores. *)
Theorem summary_rows_in_document_order (c : FeatureCollection) :
  (summary_entries c).*1 = first_occurrences (types c)
  ∧ NoDup (summary_entries c).*1
  ∧ (list_to_map (summary_entries c) : gmap string nat) = summarize c
  ∧ ∀ t n, (t, n) ∈ summary_entries c ↔ summarize c !! t = Some n.
Proof.
  destruct (fold_count_entry (features c) []) as [Hmap Hkeys].
  assert (Hk : (summary_entries c).*1 = first_occurrences (types c)).
  { unfold summary_entries, types. rewrite Hkeys. apply fold_add_key_nil. }
  assert (Hnd : NoDup (summary_entries c).*1).
  { rewrite Hk. apply first_occurrences_NoDup. }
  assert (Hm : (list_to_map (summary_entries c) : gmap string nat) = summarize c)
    by exact Hmap.
  split; [exact Hk|]. split; [exact Hnd|]. split; [exact Hm|].
  intros t n. rewrite <- Hm.
  by apply (elem_of_list_to_map (M := gmap string)).
Qed.

(** X5: the rows of the details table.  [Object.entries(details)] has one
    row per line type among the features, in the order in which the two
    types first appear, so at most two rows; read as a dictionary it is the
    table that [handleDetailed] stores. *)
Theorem details_rows_in_document_order `{Imports} (c : FeatureCollection) :
  (details_entries c).*1
  = first_occurrences (filter (λ t, is_line t) (types c))
  ∧ NoDup (details_entries c).*1
  ∧ (length (details_entries c) ≤ 2)%nat
  ∧ (list_to_map (details_entries c) : gmap string number) = detail c
  ∧ ∀ t v, (t, v) ∈ details_entries c ↔ detail c !! t = Some v.
Proof.
  destruct (fold_length_entry (features c) []) as [Hmap Hkeys].
  assert (Hk : (details_entries c).*1
               = first_occurrences (filter (λ t, is_line t) (types c))).
  { unfold details_entries, types. rewrite Hkeys. apply fold_add_key_nil. }
  assert (Hnd : NoDup (details_entries c).*1).
  { rewrite Hk. apply first_occurrences_NoDup. }
  assert (Hm : (list_to_map (details_entries c) : gmap string number) = detail c)
    by exact Hmap.
  split; [exact Hk|]. split; [exact Hnd|]. split; [|split; [exact Hm|]].
  - rewrite <- (length_fmap fst).
    assert (Hsub : (details_entries c).*1 ⊆ ["LineString"; "MultiLineString"]).
    { intros t. rewrite Hk, first_occurrences_elem_of, list_elem_of_filter.
      intros [Hline%Is_true_true%is_line_spec _].
      destruct Hline as [-> | ->]; [left | right; left]. }
    apply (NoDup_submseteq _ _ Hnd) in Hsub.
    by apply submseteq_length in Hsub.
  - intros t v. rewrite <- Hm.
    by apply (elem_of_list_to_map (M := gmap string)).
Qed.

Example summary_entries_order :
  summary_entries {| features := [ {| geometry := Point brest |};
                                   {| geometry := LineString [paris; lyon] |};
                                   {| geometry := Point paris |} ] |}
  = [("Point", 2%nat); ("LineString", 1%nat)].
Proof. reflexivity. Qed.

(** ** The total of one line type *)

Section RunningTotal.
Context `{Imports}.
Implicit Types (fs : list Feature) (t : string) (detailsData : gmap string number).

Lemma add_length_lookup_same detailsData f :
  is_line (type (geometry f)) = true →
  add_length detailsData f !! type (geometry f)
  = Some (add (length_or_0 (detailsData !! type (geometry f))) (turf_length f)).
Proof. intros Hline. unfold add_length. rewrite Hline. apply lookup_insert_eq. Qed.

Lemma add_length_lookup_other detailsData f t :
  type (geometry f) ≠ t → add_length detailsData f !! t = detailsData !! t.
Proof.
  intros Hne. unfold add_length.
  destruct (is_line (type (geometry f))); [by apply lookup_insert_ne | done].
Qed.

(** The entry of a line type only sees the features of that type. *)
Lemma fold_add_length_lookup fs detailsData t :
  is_line t = true →
  fold_left add_length fs detailsData !! t
  = running_total (detailsData !! t) (filter (λ f, type (geometry f) = t) fs).
Proof.
  intros Hline. revert detailsData.
  induction fs as [|f fs IH]; intros detailsData; [done|].
  cbn [fold_left]. rewrite IH, filter_cons.
  destruct (decide (type (geometry f) = t)) as [<-|Hne].
  - by rewrite add_length_lookup_same.
  - by rewrite add_length_lookup_other.
Qed.

Lemma running_total_is_Some acc fs :
  fs ≠ [] → is_Some (running_total acc fs).
Proof.
  intros Hne. destruct fs as [|f fs _] using rev_ind; [done|].
  unfold running_total. rewrite fold_left_app. simpl. by eexists.
Qed.

Lemma detail_lookup_not_line (c : FeatureCollection) t :
  is_line t = false → detail c !! t = None.
Proof.
  intros Hline. destruct (detail c !! t) as [v|] eqn:Hl; [|done].
  assert (Hkeys : line_keys (detail c)).
  { apply fold_add_length_keys. intros t'. rewrite lookup_empty. by intros [? ?]. }
  destruct (Hkeys t) as [-> | ->]; [by eexists | done | done].
Qed.
End RunningTotal.

(** X6: the total of a line type is computed from the features of that
    type alone, in document order: each one adds its length to the total
    so far, a total that is missing, [0] or NaN counting as [0].  The
    features of the other line type, and of any other type, play no part. *)
Theorem detail_lookup_running_total `{Imports} (c : FeatureCollection) (t : string) :
  detail c !! t
  = if is_line t
    then running_total None (filter (λ f, type (geometry f) = t) (features c))
    else None.
Proof.
  destruct (is_line t) eqn:Hline.
  - unfold detail. by rewrite fold_add_length_lookup, lookup_empty.
  - by apply detail_lookup_not_line.
Qed.

(** X7: the details table has a row for a line type exactly when the
    collection has a feature of that type, whatever its length: a line of a
    single point still gives a row.  In particular the table is empty
    exactly when the collection has no line feature. *)
Theorem detail_keys `{Imports} (c : FeatureCollection) :
  (∀ t, is_Some (detail c !! t)
        ↔ is_line t = true ∧ ∃ f, f ∈ features c ∧ type (geometry f) = t)
  ∧ (detail c = ∅
     ↔ ∀ f, f ∈ features c → is_line (type (geometry f)) = false).
Proof.
  assert (Hkeys : ∀ t, is_Some (detail c !! t)
            ↔ is_line t = true ∧ ∃ f, f ∈ features c ∧ type (geometry f) = t).
  { intros t. destruct (is_line t) eqn:Hline.
    - unfold detail. rewrite fold_add_length_lookup, lookup_empty by done.
      split.
      + intros Hsome. split; [done|].
        destruct (filter (λ f, type (geometry f) = t) (features c))
          as [|f fs] eqn:Hf; [by destruct Hsome|].
        assert (Hin : f ∈ filter (λ f, type (geometry f) = t) (features c))
          by (rewrite Hf; left).
        apply list_elem_of_filter in Hin as [Ht Hin]. by exists f.
      + intros [_ (f & Hin & Ht)]. apply running_total_is_Some.
        intros Hnil.
        assert (Hf : f ∈ filter (λ f, type (geometry f) = t) (features c))
          by (by apply list_elem_of_filter).
        rewrite Hnil in Hf. by apply not_elem_of_nil in Hf.
    - rewrite detail_lookup_not_line by done. split.
      + by intros [? ?].
      + by intros [? _]. }
  split; [exact Hkeys|]. split.
  - intros Hempty f Hin.
    destruct (is_line (type (geometry f))) eqn:Hline; [|done].
    assert (Hsome : is_Some (detail c !! type (geometry f))).
    { apply Hkeys. split; [done|]. by exists f. }
    rewrite Hempty, lookup_empty in Hsome. by destruct Hsome.
  - intros Hnone. apply map_eq. intros t. rewrite lookup_empty.
    destruct (detail c !! t) as [v|] eqn:Hl; [|done].
    assert (Hsome : is_Some (detail c !! t)) by (by eexists).
    apply Hkeys in Hsome as [Hline (f & Hin & <-)].
    rewrite (Hnone f Hin) in Hline. done.
Qed.

(** X8: a total that is NaN (or [0]) is dropped by the next line feature of
    its type: [NaN || 0] is [0], so the new total is that feature's length
    added to [0], and the lengths counted before are lost. *)
Theorem detail_falsy_total_restarts `{Imports}
    (c : FeatureCollection) (f : Feature) (v : number) :
  is_line (type (geometry f)) = true →
  detail c !! type (geometry f) = Some v →
  truthy v = false →
  detail (concat_collections c {| features := [f] |}) !! type (geometry f)
  = Some (add (Num 0) (turf_length f)).
Proof.
  intros Hline Hv Hfalsy. unfold detail, concat_collections. simpl.
  rewrite fold_left_app. simpl.
  rewrite add_length_lookup_same by done.
  fold (detail c). rewrite Hv. simpl. by rewrite Hfalsy.
Qed.

(** With a distance that is NaN the first line gives a NaN total, and the
    second line starts again from [0]. *)
Lemma detail_NaN_total_restarts :
  is_line (type (LineString [paris])) = true
  ∧ detail {| features := [ {| geometry := LineString [paris; lyon] |} ] |}
      !! type (LineString [paris]) = Some NaN
  ∧ truthy NaN = false
  ∧ detail (concat_collections
              {| features := [ {| geometry := LineString [paris; lyon] |} ] |}
              {| features := [ {| geometry := LineString [paris] |} ] |})
      !! type (LineString [paris])
    = Some (add (Num 0) (turf_length {| geometry := LineString [paris] |})).
Proof.
  split; [reflexivity|]. split; [reflexivity|]. split; [reflexivity|].
  exact (detail_falsy_total_restarts
           {| features := [ {| geometry := LineString [paris; lyon] |} ] |}
           {| geometry := LineString [paris] |} NaN eq_refl eq_refl eq_refl).
Defined.

(** ** The corners handed to the map *)

Section Corners.
Implicit Types (r x : number) (l : list number).

Lemma lt_is_number x r : lt x r = true → is_number x ∧ is_number r.
Proof. by destruct x, r. Qed.

Lemma fold_min_step_is_number l r :
  is_number r → is_number (fold_left min_step l r).
Proof.
  revert r. induction l as [|x l IH]; intros r Hr; simpl; [done|].
  apply IH. unfold min_step, gt. destruct (lt x r) eqn:Hlt; [|done].
  by apply lt_is_number in Hlt as [? _].
Qed.

Lemma fold_max_step_is_number l r :
  is_number r → is_number (fold_left max_step l r).
Proof.
  revert r. induction l as [|x l IH]; intros r Hr; simpl; [done|].
  apply IH. unfold max_step. destruct (lt r x) eqn:Hlt; [|done].
  by apply lt_is_number in Hlt as [_ ?].
Qed.

Lemma computeBounds_folds (c : FeatureCollection) :
  computeBounds c
  = ((fold_left min_step (lat <$> coordsOf c) Infinity,
      fold_left min_step (lon <$> coordsOf c) Infinity),
     (fold_left max_step (lat <$> coordsOf c) NegInfinity,
      fold_left max_step (lon <$> coordsOf c) NegInfinity)).
Proof. unfold computeBounds, bbox. rewrite fold_bbox_step. reflexivity. Qed.
End Corners.

(** X9: whatever the coordinates, NaN included, no corner handed to
    [fitBounds] has a NaN latitude or longitude: a NaN coordinate never
    wins a comparison, so it never enters the box. *)
Theorem computeBounds_never_NaN (c : FeatureCollection) :
  is_number (computeBounds c).1.1 ∧ is_number (computeBounds c).1.2
  ∧ is_number (computeBounds c).2.1 ∧ is_number (computeBounds c).2.2.
Proof.
  rewrite computeBounds_folds. simpl.
  repeat split;
    first [by apply fold_min_step_is_number | by apply fold_max_step_is_number].
Qed.

(** X10: for a collection that has a coordinate (in decimal degrees) the
    rectangle is not inverted: the southwest corner is below and to the
    left of the northeast corner. *)
Theorem computeBounds_not_inverted (c : FeatureCollection) :
  (∃ f, f ∈ features c ∧ coordAll (geometry f) ≠ []) →
  decimal_degrees c →
  num_le (computeBounds c).1.1 (computeBounds c).2.1
  ∧ num_le (computeBounds c).1.2 (computeBounds c).2.2.
Proof.
  intros Hne%coordsOf_nonempty Hnum.
  assert (Hlat : Forall is_number (lat <$> coordsOf c)).
  { apply Forall_fmap. eapply Forall_impl; [exact Hnum|]. by intros p [? ?]. }
  assert (Hlon : Forall is_number (lon <$> coordsOf c)).
  { apply Forall_fmap. eapply Forall_impl; [exact Hnum|]. by intros p [? ?]. }
  assert (Hlat_ne : lat <$> coordsOf c ≠ []) by (by destruct (coordsOf c)).
  assert (Hlon_ne : lon <$> coordsOf c ≠ []) by (by destruct (coordsOf c)).
  rewrite computeBounds_folds. simpl. split.
  - destruct (fold_min_Infinity _ Hlat_ne Hlat) as [Hin _].
    destruct (fold_max_NegInfinity _ Hlat_ne Hlat) as [_ Hall]. by apply Hall.
  - destruct (fold_min_Infinity _ Hlon_ne Hlon) as [Hin _].
    destruct (fold_max_NegInfinity _ Hlon_ne Hlon) as [_ Hall]. by apply Hall.
Qed.

(** The rectangle around the route is not inverted. *)
Lemma computeBounds_route_not_inverted :
  (∃ f, f ∈ features route ∧ coordAll (geometry f) ≠ [])
  ∧ decimal_degrees route
  ∧ num_le (computeBounds route).1.1 (computeBounds route).2.1
  ∧ num_le (computeBounds route).1.2 (computeBounds route).2.2.
Proof.
  assert (H1 : ∃ f, f ∈ features route ∧ coordAll (geometry f) ≠ []).
  { exists {| geometry := Point brest |}. split; [|done]. right. left. }
  assert (H2 : decimal_degrees route).
  { unfold decimal_degrees. repeat constructor; done. }
  split; [exact H1|]. split; [exact H2|].
  exact (computeBounds_not_inverted route H1 H2).
Defined.

(** ** The event loop *)

Section Loop.
Context `{Imports}.
Implicit Types (w : World) (e : Event) (es : list Event).

Lemma step_geoJsonData_is_Some w e :
  is_Some (geoJsonData (app w)) → is_Some (geoJsonData (app (step w e))).
Proof.
  intros Hsome. destruct e as [files|i| | |]; simpl.
  - unfold handleFileUpload. by destruct (files !! 0%nat).
  - destruct (reading w !! i); [by eexists | done].
  - unfold handleSummary.
    destruct (geoJsonData (app w)) as [c|] eqn:Hgeo; simpl; [by eexists | by rewrite Hgeo].
  - unfold handleDetailed.
    destruct (geoJsonData (app w)) as [c|] eqn:Hgeo; simpl; [by eexists | by rewrite Hgeo].
  - done.
Qed.

Lemma handleSummary_geoJsonData s :
  geoJsonData (handleSummary s) = geoJsonData s.
Proof. unfold handleSummary. by destruct (geoJsonData s) eqn:Hgeo. Qed.

Lemma handleDetailed_geoJsonData s :
  geoJsonData (handleDetailed s) = geoJsonData s.
Proof. unfold handleDetailed. by destruct (geoJsonData s) eqn:Hgeo. Qed.

Lemma step_fresh_viewport w e : fresh_viewport w → fresh_viewport (step w e).
Proof.
  unfold fresh_viewport. intros Hw. destruct e as [files|i| | |].
  - cbn [step]. unfold handleFileUpload. by destruct (files !! 0%nat).
  - cbn [step]. destruct (reading w !! i) as [file|]; [|done].
    cbn [app mapRef]. destruct (mapRef w) as [v|]; [|by left].
    right. right. exists (kml (parseFromString (text file))).
    split; [reflexivity|].
    unfold fitBoundsEffect. cbn [onload setDetails setSummary setGeoJsonData geoJsonData].
    by destruct (computeBounds (kml (parseFromString (text file)))).
  - cbn [step app mapRef]. by rewrite handleSummary_geoJsonData.
  - cbn [step app mapRef]. by rewrite handleDetailed_geoJsonData.
  - cbn [step app mapRef]. destruct Hw as [->|[->|(c & Hc & ->)]].
    + right. by left.
    + right. by left.
    + right. right. by exists c.
Qed.

Lemma step_onChange_cons w f rest :
  step w (onChange (f :: rest))
  = {| app := app w; reading := (reading w ++ [f])%list; mapRef := mapRef w |}.
Proof. reflexivity. Qed.

(** The end of the read started last. *)
Lemma step_loadEnd_last a (l : list File) f m :
  step {| app := a; reading := (l ++ [f])%list; mapRef := m |} (loadEnd (length l))
  = {| app := onload (text f) a; reading := l;
       mapRef := fitBoundsEffect (geoJsonData (onload (text f) a)) m |}.
Proof.
  cbn [step reading app mapRef].
  by rewrite list_lookup_middle, delete_middle, app_nil_r.
Qed.

(** The end of the read started just before the last one. *)
Lemma step_loadEnd_previous a (l : list File) f1 f2 m :
  step {| app := a; reading := ((l ++ [f1]) ++ [f2])%list; mapRef := m |}
       (loadEnd (length l))
  = {| app := onload (text f1) a; reading := (l ++ [f2])%list;
       mapRef := fitBoundsEffect (geoJsonData (onload (text f1) a)) m |}.
Proof.
  cbn [step reading app mapRef]. rewrite <- app_assoc. simpl.
  by rewrite list_lookup_middle, delete_middle.
Qed.
End Loop.

(** X11: nothing unloads a collection: once a read has ended, every later
    state of the page has a collection, whatever the events. *)
Theorem collection_is_never_unloaded `{Imports} (es : list Event) (w : World) :
  is_Some (geoJsonData (app w)) → is_Some (geoJsonData (app (run es w))).
Proof.
  revert w. induction es as [|e es IH]; intros w Hw; [done|].
  simpl. by apply IH, step_geoJsonData_is_Some.
Qed.

(** A text that is not XML, read after the route, leaves a collection. *)
Lemma route_is_never_unloaded :
  is_Some (geoJsonData (app {| app := route_summarized; reading := [];
                               mapRef := None |}))
  ∧ is_Some (geoJsonData (app (run
       [clickDetailed; onChange [ {| text := broken_kml |} ]; loadEnd 0; clickSummary]
       {| app := route_summarized; reading := []; mapRef := None |}))).
Proof.
  assert (H0 : is_Some (geoJsonData (app {| app := route_summarized; reading := [];
                                            mapRef := None |}))) by (by eexists).
  split; [exact H0|].
  exact (collection_is_never_unloaded _ _ H0).
Defined.

(** X12: the map is never framed on an older collection: after any
    sequence of events the map reference is unset, or the map shows the
    view it was created with, or the last [fitBounds] call used the corners
    of the collection now loaded, with the padding [20, 20]. *)
Theorem viewport_follows_collection `{Imports} (es : list Event) :
  fresh_viewport (run es initialWorld).
Proof.
  assert (Hrun : ∀ w, fresh_viewport w → fresh_viewport (run es w)).
  { induction es as [|e es IH]; intros w Hw; [done|].
    simpl. by apply IH, step_fresh_viewport. }
  apply Hrun. by left.
Qed.

(** X13: two reads in flight end in any order, and the collection shown is
    that of the read that ended last: when the file chosen first is read
    last, it replaces the file chosen second.  Each handler only reads
    [files[0]]. *)
Theorem last_completed_read_wins `{Imports}
    (w : World) (f1 f2 : File) (rest1 rest2 : list File) :
  app (run [onChange (f1 :: rest1); onChange (f2 :: rest2);
            loadEnd (S (length (reading w))); loadEnd (length (reading w))] w)
  = {| geoJsonData := Some (kml (parseFromString (text f1)));
       summary := None; details := None |}
  ∧ reading (run [onChange (f1 :: rest1); onChange (f2 :: rest2);
                  loadEnd (S (length (reading w))); loadEnd (length (reading w))] w)
    = reading w.
Proof.
  destruct w as [a r m]. unfold run. cbn [fold_left].
  rewrite !step_onChange_cons. cbn [app reading mapRef].
  assert (Hlen : S (length r) = length (r ++ [f1])%list)
    by (rewrite length_app; simpl; lia).
  rewrite Hlen, step_loadEnd_last, step_loadEnd_last.
  by cbn [app reading].
Qed.

(** When the file chosen second is read first, it is the one that is
    replaced: the two reads commute with the choice of the files, the last
    end decides. *)
Example first_completed_read_loses `{Imports}
    (w : World) (f1 f2 : File) :
  geoJsonData (app (run [onChange [f1]; onChange [f2];
                         loadEnd (length (reading w)); loadEnd (length (reading w))] w))
  = Some (kml (parseFromString (text f2))).
Proof.
  destruct w as [a r m]. unfold run. cbn [fold_left].
  rewrite !step_onChange_cons. cbn [app reading mapRef].
  by rewrite step_loadEnd_previous, step_loadEnd_last.
Qed.

(** X14: a collection loaded before the map reference is set is not
    framed, and setting the reference afterwards does not frame it either:
    the effect runs when the collection changes, not when the map arrives. *)
Theorem load_before_map_is_not_framed `{Imports}
    (w : World) (i : nat) (file : File) :
  mapRef w = None →
  reading w !! i = Some file →
  geoJsonData (app (run [loadEnd i; whenCreated] w))
  = Some (kml (parseFromString (text file)))
  ∧ mapRef (run [loadEnd i; whenCreated] w) = Some defaultViewport.
Proof.
  intros Hmap Hread. unfold run. simpl. rewrite Hread. simpl.
  by rewrite Hmap.
Qed.

(** The empty document read before the map exists. *)
Lemma empty_kml_before_map_is_not_framed :
  mapRef {| app := initialState; reading := [ {| text := empty_kml |} ];
            mapRef := None |} = None
  ∧ reading {| app := initialState; reading := [ {| text := empty_kml |} ];
               mapRef := None |} !! 0%nat = Some {| text := empty_kml |}
  ∧ geoJsonData (app (run [loadEnd 0; whenCreated]
       {| app := initialState; reading := [ {| text := empty_kml |} ];
          mapRef := None |}))
    = Some (kml (parseFromString (text {| text := empty_kml |})))
  ∧ mapRef (run [loadEnd 0; whenCreated]
       {| app := initialState; reading := [ {| text := empty_kml |} ];
          mapRef := None |}) = Some defaultViewport.
Proof.
  split; [reflexivity|]. split; [reflexivity|].
  exact (load_before_map_is_not_framed
           {| app := initialState; reading := [ {| text := empty_kml |} ];
              mapRef := None |} 0 {| text := empty_kml |} eq_refl eq_refl).
Defined.

(** X15: an upload from end to end.  Choosing files and letting the read
    that was started end loads the first file and only that one: its
    collection replaces the current one, both tables are reset, the map,
    if its reference is set, is framed on the new collection, and the
    reads that were already in flight are still in flight. *)
Theorem upload_then_read `{Imports} (w : World) (f : File) (rest : list File) :
  run [onChange (f :: rest); loadEnd (length (reading w))] w
  = {| app := {| geoJsonData := Some (kml (parseFromString (text f)));
                 summary := None; details := None |};
       reading := reading w;
       mapRef := fitBoundsEffect (Some (kml (parseFromString (text f)))) (mapRef w) |}.
Proof.
  destruct w as [a r m]. unfold run. cbn [fold_left].
  rewrite step_onChange_cons. cbn [app reading mapRef].
  by rewrite step_loadEnd_last.
Qed.
